(** * Pollutant degradation kinetics: models, validation and fit statistics

    A shallow embedding of the numerical core of the repository:

    - [src/utils/data_processing.py]: [validate_data], [calculate_statistics];
    - [src/models/first_order.py], [second_order.py],
      [langmuir_hinshelwood.py]: the three model functions and their fitting
      drivers.

    Two number models are used, chosen by what the code computes with.

    - [validate_data] and [calculate_statistics] use only comparisons and the
      IEEE 754 basic operations (+, -, *, /, sqrt, abs).  They are embedded on
      Rocq's primitive binary64 floats, so they run bit for bit like NumPy's
      float64 and can be evaluated on concrete inputs.
    - The model functions call [np.exp] and [np.log], which binary64 floats
      in Rocq do not provide.  They are embedded on extended reals (module
      [XR]): a finite value is a real number with exact arithmetic, and
      +inf, -inf and NaN follow the IEEE rules.  Rounding, overflow and the
      sign of zero are not represented there. *)

From Stdlib Require Import String Bool ZArith Lia List.
From Stdlib Require Import Floats.
From Stdlib Require Import Reals Lra.
Import ListNotations.

(** ** Python outcomes

    A call either returns a value or raises.  Only the exception classes that
    NumPy and SciPy raise on the paths modelled here are distinguished. *)
Inductive py_exn : Type :=
| ValueError (msg : string)
| RuntimeError (msg : string)
| OtherError (cls msg : string).

Inductive result (A : Type) : Type :=
| Ok (a : A)
| Raise (e : py_exn).
Arguments Ok {A} a.
Arguments Raise {A} e.

Definition bind {A B : Type} (m : result A) (k : A -> result B) : result B :=
  match m with
  | Ok a => k a
  | Raise e => Raise e
  end.

Notation "x <- m ;; k" := (bind m (fun x => k))
  (at level 61, m at next level, right associativity).
Notation "' p <- m ;; k" := (bind m (fun p => k))
  (at level 61, p pattern, m at next level, right associativity).

Definition msg_broadcast : string :=
  "operands could not be broadcast together".
Definition msg_not_converged : string :=
  "Optimal parameters not found".

(* ================================================================== *)
(** * Part I: binary64 embedding of [src/utils/data_processing.py]     *)
(* ================================================================== *)

(** NumPy's elementwise and reduction primitives on one-dimensional float64
    arrays, as [list float]. *)
Module B64.

Local Open Scope float_scope.

Definition nan : float := PrimFloat.nan.

(** [len(a)] as a float64, as NumPy does when it divides a sum by a count. *)
Definition of_nat (n : nat) : float :=
  PrimFloat.of_uint63 (Uint63.of_Z (Z.of_nat n)).

(** [a op b] for two arrays.  NumPy broadcasts one-dimensional operands:
    equal lengths go elementwise, a length-one operand is stretched, and any
    other pair of shapes raises [ValueError]. *)
Fixpoint zip_with (f : float -> float -> float) (a b : list float)
  : list float :=
  match a, b with
  | x :: a', y :: b' => f x y :: zip_with f a' b'
  | _, _ => []
  end.

Definition broadcast2 (f : float -> float -> float) (a b : list float)
  : result (list float) :=
  if Nat.eqb (length a) (length b) then Ok (zip_with f a b)
  else match a, b with
       | [x], _ => Ok (map (f x) b)
       | _, [y] => Ok (map (fun x => f x y) a)
       | _, _ => Raise (ValueError msg_broadcast)
       end.

(** [a - s] for an array and a scalar. *)
Definition sub_scalar (a : list float) (s : float) : list float :=
  map (fun x => x - s) a.

(** [a ** 2]: NumPy evaluates an exponent of 2 as [x * x]. *)
Definition square (a : list float) : list float :=
  map (fun x => x * x) a.

Definition np_abs (a : list float) : list float := map PrimFloat.abs a.

(** [np.sum]: the additions start from +0 and run left to right (NumPy's
    order for arrays of fewer than eight elements). *)
Definition np_sum (a : list float) : float :=
  fold_left PrimFloat.add a 0.

(** [np.mean]: the sum divided by the element count; an empty array gives
    0/0, which is NaN. *)
Definition np_mean (a : list float) : float :=
  np_sum a / of_nat (length a).

Definition np_sqrt (x : float) : float := PrimFloat.sqrt x.

Definition is_nan (x : float) : bool := PrimFloat.is_nan x.

(** [np.isfinite]: neither NaN nor an infinity. *)
Definition is_finite (x : float) : bool :=
  match Prim2SF x with
  | S754_zero _ | S754_finite _ _ _ => true
  | S754_infinity _ | S754_nan => false
  end.

End B64.

(** ** [validate_data] *)

Definition msg_length : string :=
  "Number of time points must match number of concentration points".
Definition msg_count : string :=
  "At least 3 data points are required for fitting".
Definition msg_time_negative : string :=
  "Time values must be non-negative".
Definition msg_conc_negative : string :=
  "Concentration values must be non-negative".
Definition msg_time_order : string :=
  "Time values must be strictly increasing".

(** [errors.append(m)] under a condition: the list is threaded through the
    five [if] statements. *)
Definition append_if (cond : bool) (m : string) (errors : list string)
  : list string :=
  if cond then errors ++ [m] else errors.

(** [any(p(x) for x in xs)] *)
Definition any {A : Type} (p : A -> bool) (xs : list A) : bool := existsb p xs.

(** [zip(time_points[:-1], time_points[1:])] *)
Definition consecutive (ts : list float) : list (float * float) :=
  combine (removelast ts) (tl ts).

Definition validate_data (time_points conc_points : list float)
  : list string :=
  let errors := [] in
  let errors :=
    append_if (negb (Nat.eqb (length time_points) (length conc_points)))
              msg_length errors in
  let errors :=
    append_if (Nat.ltb (length time_points) 3) msg_count errors in
  let errors :=
    append_if (any (fun t => PrimFloat.ltb t 0%float) time_points)
              msg_time_negative errors in
  let errors :=
    append_if (any (fun c => PrimFloat.ltb c 0%float) conc_points)
              msg_conc_negative errors in
  let errors :=
    append_if (any (fun '(t1, t2) => PrimFloat.leb t2 t1)
                   (consecutive time_points))
              msg_time_order errors in
  errors.

(** *** The five checks, as the specification words them

    Each is stated on its own, to compare with what [validate_data]
    reports.  The count is taken on the time points, as the code does; when
    the lengths are equal it is the count of either sequence. *)

Definition lengths_equal (time_points conc_points : list float) : bool :=
  Nat.eqb (length time_points) (length conc_points).

Definition enough_points (time_points : list float) : bool :=
  Nat.leb 3 (length time_points).

Definition no_negative (xs : list float) : bool :=
  forallb (fun x => negb (PrimFloat.ltb x 0%float)) xs.

(** Each consecutive pair satisfies [t[i] < t[i+1]]. *)
Fixpoint strictly_increasing (ts : list float) : bool :=
  match ts with
  | t1 :: (t2 :: _) as rest => PrimFloat.ltb t1 t2 && strictly_increasing rest
  | _ => true
  end.

Definition non_nan (x : float) : Prop := B64.is_nan x = false.

(** The message of a check, present when the check fails. *)
Definition report (passed : bool) (m : string) : list string :=
  if passed then [] else [m].

(** ** [calculate_statistics] *)

(** The sign of a float is not set: a NaN, +0, +inf or a positive number. *)
Definition sign_clear (s : spec_float) : bool :=
  match s with
  | S754_nan => true
  | S754_zero b | S754_infinity b | S754_finite b _ _ => negb b
  end.

Record statistics : Type := mk_statistics
  { rmse : float; r2 : float; mae : float; mse : float }.

(** [np.sum((actual - np.mean(actual))**2)], the denominator of R². *)
Definition ss_tot (actual : list float) : float :=
  B64.np_sum (B64.square (B64.sub_scalar actual (B64.np_mean actual))).

Definition calculate_statistics (predicted actual : list float)
  : result statistics :=
  residuals <- B64.broadcast2 PrimFloat.sub actual predicted ;;
  let rmse := B64.np_sqrt (B64.np_mean (B64.square residuals)) in
  let r2 :=
    (1 - B64.np_sum (B64.square residuals) / ss_tot actual)%float in
  let mae := B64.np_mean (B64.np_abs residuals) in
  let mse := B64.np_mean (B64.square residuals) in
  Ok (mk_statistics rmse r2 mae mse).


(* ================================================================== *)
(** * Part II: extended-real embedding of [src/models]                 *)
(* ================================================================== *)

(** A float64 value up to rounding: a real number, an infinity or NaN. *)
Inductive xreal : Type :=
| Fin (r : R)
| PInf
| NInf
| NaN.

Module XR.

Local Open Scope R_scope.

(** Case analysis on the sign of a real. *)
Definition by_sign {A : Type} (r : R) (neg zero pos : A) : A :=
  match total_order_T r 0 with
  | inleft (left _) => neg
  | inleft (right _) => zero
  | inright _ => pos
  end.

Definition neg (x : xreal) : xreal :=
  match x with
  | Fin a => Fin (- a)
  | PInf => NInf
  | NInf => PInf
  | NaN => NaN
  end.

Definition add (x y : xreal) : xreal :=
  match x, y with
  | NaN, _ | _, NaN => NaN
  | Fin a, Fin b => Fin (a + b)
  | PInf, NInf | NInf, PInf => NaN
  | PInf, _ | _, PInf => PInf
  | NInf, _ | _, NInf => NInf
  end.

Definition sub (x y : xreal) : xreal := add x (neg y).

Definition mul (x y : xreal) : xreal :=
  match x, y with
  | NaN, _ | _, NaN => NaN
  | Fin a, Fin b => Fin (a * b)
  | Fin a, PInf | PInf, Fin a => by_sign a NInf NaN PInf
  | Fin a, NInf | NInf, Fin a => by_sign a PInf NaN NInf
  | PInf, PInf | NInf, NInf => PInf
  | PInf, NInf | NInf, PInf => NInf
  end.

(** Division; a zero divisor is +0. *)
Definition div (x y : xreal) : xreal :=
  match x, y with
  | NaN, _ | _, NaN => NaN
  | Fin a, Fin b =>
      if Req_dec_T b 0 then by_sign a NInf NaN PInf else Fin (a / b)
  | Fin _, PInf | Fin _, NInf => Fin 0
  | PInf, Fin b => by_sign b NInf PInf PInf
  | NInf, Fin b => by_sign b PInf NInf NInf
  | _, _ => NaN
  end.

Definition exp (x : xreal) : xreal :=
  match x with
  | Fin a => Fin (Rtrigo_def.exp a)
  | PInf => PInf
  | NInf => Fin 0
  | NaN => NaN
  end.

(** [np.log]: -inf at zero and NaN below it, with a warning only. *)
Definition log (x : xreal) : xreal :=
  match x with
  | Fin a => by_sign a NaN NInf (Fin (ln a))
  | PInf => PInf
  | NInf => NaN
  | NaN => NaN
  end.

Definition sqrt (x : xreal) : xreal :=
  match x with
  | Fin a => by_sign a NaN (Fin 0) (Fin (R_sqrt.sqrt a))
  | PInf => PInf
  | NInf => NaN
  | NaN => NaN
  end.

(** [np.maximum] and [np.minimum] propagate NaN. *)
Definition maximum (x y : xreal) : xreal :=
  match x, y with
  | NaN, _ | _, NaN => NaN
  | PInf, _ | _, PInf => PInf
  | NInf, z | z, NInf => z
  | Fin a, Fin b => Fin (Rmax a b)
  end.

Definition minimum (x y : xreal) : xreal :=
  match x, y with
  | NaN, _ | _, NaN => NaN
  | NInf, _ | _, NInf => NInf
  | PInf, z | z, PInf => z
  | Fin a, Fin b => Fin (Rmin a b)
  end.

(** [np.clip(x, lo, hi)] is [minimum(maximum(x, lo), hi)]. *)
Definition clip (x lo hi : xreal) : xreal := minimum (maximum x lo) hi.


End XR.

(** ** Broadcasting

    The model functions are written once and accept a scalar time or an
    array of times; the parameters are scalars.  [Elementwise] is that
    interface: how a one-argument and a two-argument float operation act
    on the shape at hand. *)
Class Elementwise (A : Type) : Type :=
  { emap : (xreal -> xreal) -> A -> A;
    emap2 : (xreal -> xreal -> xreal) -> A -> A -> A }.

#[export] Instance scalar_elementwise : Elementwise xreal :=
  { emap f x := f x;
    emap2 f x y := f x y }.

Fixpoint zip_with {A B C : Type} (f : A -> B -> C) (a : list A) (b : list B)
  : list C :=
  match a, b with
  | x :: a', y :: b' => f x y :: zip_with f a' b'
  | _, _ => []
  end.

#[export] Instance array_elementwise : Elementwise (list xreal) :=
  { emap f a := map f a;
    emap2 f a b := zip_with f a b }.

Section NumPy.
Context {A : Type} `{Elementwise A}.

Definition np_exp (x : A) : A := emap XR.exp x.
Definition np_log (x : A) : A := emap XR.log x.
Definition np_clip (x : A) (lo hi : xreal) : A :=
  emap (fun v => XR.clip v lo hi) x.

(** A scalar on the left of an array: [s * x], [s + x], [s - x], [s / x]. *)
Definition smul (s : xreal) (x : A) : A := emap (XR.mul s) x.
Definition sadd (s : xreal) (x : A) : A := emap (XR.add s) x.
Definition ssub (s : xreal) (x : A) : A := emap (XR.sub s) x.
Definition sdiv (s : xreal) (x : A) : A := emap (XR.div s) x.

(** A scalar on the right: [x + s]. *)
Definition adds (x : A) (s : xreal) : A := emap (fun v => XR.add v s) x.

(** Two operands of the same shape. *)
Definition asub (x y : A) : A := emap2 XR.sub x y.
Definition adiv (x y : A) : A := emap2 XR.div x y.
End NumPy.

(** ** The three model functions *)

Section Models.
Context {A : Type} `{Elementwise A}.
Local Open Scope R_scope.

(** [src/models/first_order.py] *)
Definition first_order_model (t : A) (k c0 : xreal) : A :=
  let k_clipped := XR.clip k (Fin 0) (Fin 1e3) in
  let exp_term := np_exp (smul (XR.neg k_clipped) t) in
  let exp_term := np_clip exp_term (Fin 0) (Fin 1e100) in
  smul c0 exp_term.

(** [src/models/second_order.py] *)
Definition second_order_model (t : A) (k c0 : xreal) : A :=
  let k_clipped := XR.clip k (Fin 0) (Fin 1e3) in
  let denominator := sadd (Fin 1) (smul (XR.mul k_clipped c0) t) in
  let denominator := np_clip denominator (Fin 1e-10) PInf in
  sdiv c0 denominator.

(** [src/models/langmuir_hinshelwood.py] *)
Definition langmuir_hinshelwood_model (t : A) (k K c0 : xreal) : A :=
  let k_clipped := XR.clip k (Fin 0) (Fin 1e3) in
  let K_clipped := XR.clip K (Fin 0) (Fin 1e3) in
  let term1 := XR.mul K_clipped c0 in
  let term2 :=
    ssub (XR.log c0)
         (np_log (smul c0 (np_exp (smul (XR.neg k_clipped) t)))) in
  adiv
    (asub (adds (smul term1 term2) c0)
          (smul c0 (np_exp (smul (XR.neg k_clipped) t))))
    (sadd (Fin 1)
          (smul (XR.mul K_clipped c0)
                (np_exp (smul (XR.neg k_clipped) t)))).
End Models.

(** The value of [np.clip(k, 0, 1e3)] on a finite [k]. *)
Definition clamp_k (k : R) : R := Rmin (Rmax k 0) 1e3.

(** NaN, +inf or a real that is not negative: what a sum of squares, a mean
    of squares or a square root can be. *)
Definition nonneg_or_nan (x : xreal) : Prop :=
  match x with
  | Fin a => (0 <= a)%R
  | PInf | NaN => True
  | NInf => False
  end.

(** NaN, -inf or a real that is at most 1. *)
Definition at_most_one_or_nan (x : xreal) : Prop :=
  match x with
  | Fin a => (a <= 1)%R
  | NInf | NaN => True
  | PInf => False
  end.

(** ** Array reductions used by the fitting drivers *)

Module XA.

Definition broadcast2 (f : xreal -> xreal -> xreal) (a b : list xreal)
  : result (list xreal) :=
  if Nat.eqb (length a) (length b) then Ok (zip_with f a b)
  else match a, b with
       | [x], _ => Ok (map (f x) b)
       | _, [y] => Ok (map (fun x => f x y) a)
       | _, _ => Raise (ValueError msg_broadcast)
       end.

Definition square (a : list xreal) : list xreal :=
  map (fun x => XR.mul x x) a.

Definition sub_scalar (a : list xreal) (s : xreal) : list xreal :=
  map (fun x => XR.sub x s) a.

Definition np_sum (a : list xreal) : xreal :=
  fold_left XR.add a (Fin 0).

Definition np_mean (a : list xreal) : xreal :=
  XR.div (np_sum a) (Fin (INR (length a))).

End XA.

(** ** The fitting drivers

    [scipy.optimize.curve_fit] is not code of this repository.  It is a
    parameter of the drivers: given the model as a function of the times and
    the free parameters, the data, an optional initial guess and the bounds,
    it returns the optimal parameters with their covariance, or raises
    ([RuntimeError] when the least-squares iteration does not converge,
    [ValueError] on data it rejects). *)
Section Fitting.
Local Open Scope R_scope.

Variable cov : Type.

(** The solver for a model with one free parameter, and with two. *)
Variable curve_fit1 :
  (list xreal -> xreal -> list xreal) ->
  list xreal -> list xreal ->
  option xreal -> xreal * xreal ->
  result (xreal * cov).
Variable curve_fit2 :
  (list xreal -> xreal -> xreal -> list xreal) ->
  list xreal -> list xreal ->
  option (xreal * xreal) -> (xreal * xreal) * (xreal * xreal) ->
  result ((xreal * xreal) * cov).

(** The statistics block shared, line for line, by the three drivers. *)
Definition fit_rmse (residuals : list xreal) : xreal :=
  XR.sqrt (XA.np_mean (XA.square residuals)).

Definition fit_r2 (residuals conc_points : list xreal) : xreal :=
  XR.sub (Fin 1)
    (XR.div (XA.np_sum (XA.square residuals))
            (XA.np_sum (XA.square
               (XA.sub_scalar conc_points (XA.np_mean conc_points))))).

Definition fit_first_order (time_points conc_points : list xreal)
  (c0 : xreal) : result (xreal * xreal * xreal) :=
  let bounds := (Fin 0, Fin 1e3) in
  '(k, pcov) <- curve_fit1 (fun t k => first_order_model t k c0)
                  time_points conc_points None bounds ;;
  let predicted := first_order_model time_points k c0 in
  residuals <- XA.broadcast2 XR.sub conc_points predicted ;;
  let rmse := fit_rmse residuals in
  let r2 := fit_r2 residuals conc_points in
  Ok (k, r2, rmse).

Definition fit_second_order (time_points conc_points : list xreal)
  (c0 : xreal) : result (xreal * xreal * xreal) :=
  let bounds := (Fin 0, Fin 1e3) in
  '(k, pcov) <- curve_fit1 (fun t k => second_order_model t k c0)
                  time_points conc_points None bounds ;;
  let predicted := second_order_model time_points k c0 in
  residuals <- XA.broadcast2 XR.sub conc_points predicted ;;
  let rmse := fit_rmse residuals in
  let r2 := fit_r2 residuals conc_points in
  Ok (k, r2, rmse).

Definition fit_langmuir_hinshelwood (time_points conc_points : list xreal)
  (c0 : xreal) : result (xreal * xreal * xreal * xreal) :=
  let bounds := ((Fin 0, Fin 0), (Fin 1e3, Fin 1e3)) in
  let p0 := (Fin 0.1, Fin 0.1) in
  '(k, K, pcov) <- curve_fit2
                     (fun t k K => langmuir_hinshelwood_model t k K c0)
                     time_points conc_points (Some p0) bounds ;;
  let predicted := langmuir_hinshelwood_model time_points k K c0 in
  residuals <- XA.broadcast2 XR.sub conc_points predicted ;;
  let rmse := fit_rmse residuals in
  let r2 := fit_r2 residuals conc_points in
  Ok (k, K, r2, rmse).

End Fitting.

(* ================================================================== *)
(** * Part III: properties of the model functions                      *)
(* ================================================================== *)

Section ModelFacts.
Local Open Scope R_scope.



Lemma by_sign_pos {A : Type} (r : R) (n z p : A) :
  0 < r -> XR.by_sign r n z p = p.
Proof.
  intros Hr. unfold XR.by_sign.
  destruct (total_order_T r 0) as [[Hlt | Heq] | Hgt]; trivial; lra.
Qed.

Lemma div_fin (a b : R) : b <> 0 -> XR.div (Fin a) (Fin b) = Fin (a / b).
Proof.
  intros Hb. simpl. destruct (Req_dec_T b 0) as [E | _]; [contradiction | reflexivity].
Qed.

Lemma clip_k (k : R) : XR.clip (Fin k) (Fin 0) (Fin 1e3) = Fin (clamp_k k).
Proof. reflexivity. Qed.

Lemma clamp_k_range (k : R) : 0 <= clamp_k k <= 1e3.
Proof.
  unfold clamp_k. split.
  - apply Rmin_glb; [apply Rmax_r | lra].
  - apply Rmin_r.
Qed.

Lemma clamp_k_id (k : R) : 0 <= k <= 1e3 -> clamp_k k = k.
Proof.
  intros [H0 H1]. unfold clamp_k.
  rewrite Rmax_left by lra. apply Rmin_left; lra.
Qed.

Lemma clamp_k_neg (k : R) : k <= 0 -> clamp_k k = 0.
Proof.
  intros Hk. unfold clamp_k.
  rewrite Rmax_right by lra. apply Rmin_left; lra.
Qed.

Lemma clamp_k_mono (k : R) : 0 < k -> 0 < clamp_k k.
Proof.
  intros Hk. unfold clamp_k. apply Rmin_glb_lt; [|lra].
  apply Rlt_le_trans with k; [lra | apply Rmax_l].
Qed.

(** Closed forms of the two clamped models on finite arguments. *)
Lemma first_order_fin (t k c0 : R) :
  first_order_model (Fin t) (Fin k) (Fin c0)
  = Fin (c0 * Rmin (Rmax (exp (- clamp_k k * t)) 0) 1e100).
Proof. reflexivity. Qed.

Lemma second_order_fin (t k c0 : R) :
  second_order_model (Fin t) (Fin k) (Fin c0)
  = Fin (c0 / Rmax (1 + clamp_k k * c0 * t) 1e-10).
Proof.
  unfold second_order_model, np_clip, sadd, smul, sdiv.
  cbn [emap scalar_elementwise].
  rewrite clip_k. cbn [XR.mul XR.add XR.clip XR.maximum XR.minimum].
  apply div_fin.
  pose proof (Rmax_r (1 + clamp_k k * c0 * t) 1e-10). lra.
Qed.

Lemma exp_neg_le_1 (a : R) : 0 <= a -> exp (- a) <= 1.
Proof.
  intros Ha. destruct (Req_dec a 0) as [-> | Hne].
  - rewrite Ropp_0, exp_0. lra.
  - rewrite <- exp_0. left. apply exp_increasing. lra.
Qed.


(** At [t = 0] the first- and second-order models return [c0], whatever
    the finite rate constant. *)
Lemma first_order_at_zero (k c0 : R) :
  first_order_model (Fin 0) (Fin k) (Fin c0) = Fin c0.
Proof.
  rewrite first_order_fin. f_equal.
  rewrite Rmult_0_r, exp_0.
  rewrite Rmax_left by lra. rewrite Rmin_left by lra. ring.
Qed.

Lemma second_order_at_zero (k c0 : R) :
  second_order_model (Fin 0) (Fin k) (Fin c0) = Fin c0.
Proof.
  rewrite second_order_fin. f_equal.
  rewrite Rmult_0_r, Rplus_0_r.
  rewrite Rmax_left by lra. field.
Qed.

(** The Langmuir-Hinshelwood expression on finite arguments with a
    positive [c0]: both logarithms are taken of positive numbers. *)
Lemma langmuir_hinshelwood_fin (t k K c0 : R) :
  0 < c0 ->
  langmuir_hinshelwood_model (Fin t) (Fin k) (Fin K) (Fin c0)
  = Fin ((clamp_k K * c0 * (ln c0 - ln (c0 * exp (- clamp_k k * t)))
          + c0 - c0 * exp (- clamp_k k * t))
         / (1 + clamp_k K * c0 * exp (- clamp_k k * t))).
Proof.
  intros Hc0.
  unfold langmuir_hinshelwood_model, np_exp, np_log, smul, sadd, ssub,
    adds, asub, adiv.
  cbn [emap emap2 scalar_elementwise].
  rewrite !clip_k.
  pose proof (exp_pos (- clamp_k k * t)) as He.
  pose proof (clamp_k_range K) as HK.
  assert (Hprod : 0 < c0 * exp (- clamp_k k * t))
    by (apply Rmult_lt_0_compat; assumption).
  cbn [XR.neg XR.mul XR.exp XR.log].
  rewrite (by_sign_pos c0) by assumption.
  rewrite (by_sign_pos (c0 * _)) by assumption.
  cbn [XR.sub XR.neg XR.add XR.mul].
  rewrite div_fin.
  - f_equal.
  - assert (0 <= clamp_k K * c0 * exp (- clamp_k k * t)).
    { apply Rmult_le_pos; [apply Rmult_le_pos|]; lra. }
    lra.
Qed.

(** For a positive [c0] the Langmuir-Hinshelwood model is 0 at [t = 0]:
    the two logarithms cancel and so do [c0] and [c0 * exp 0]. *)
Lemma langmuir_hinshelwood_at_zero (k K c0 : R) :
  0 < c0 ->
  langmuir_hinshelwood_model (Fin 0) (Fin k) (Fin K) (Fin c0) = Fin 0.
Proof.
  intros Hc0. rewrite langmuir_hinshelwood_fin by assumption. f_equal.
  rewrite Rmult_0_r, exp_0, Rmult_1_r.
  pose proof (clamp_k_range K) as HK.
  assert (0 <= clamp_k K * c0) by (apply Rmult_le_pos; lra).
  field. lra.
Qed.


(** *** The array instance is the scalar instance at every position *)

Lemma zip_with_map {X Y Z W : Type} (f : Y -> Z -> W) (g : X -> Y)
  (h : X -> Z) (l : list X) :
  zip_with f (map g l) (map h l) = map (fun x => f (g x) (h x)) l.
Proof.
  induction l as [| x l IH]; simpl; [reflexivity | now rewrite IH].
Qed.

Lemma first_order_model_map (ts : list xreal) (k c0 : xreal) :
  first_order_model ts k c0 = map (fun t => first_order_model t k c0) ts.
Proof.
  unfold first_order_model, np_exp, np_clip, smul.
  cbn [emap array_elementwise scalar_elementwise].
  rewrite !map_map. reflexivity.
Qed.

Lemma second_order_model_map (ts : list xreal) (k c0 : xreal) :
  second_order_model ts k c0 = map (fun t => second_order_model t k c0) ts.
Proof.
  unfold second_order_model, np_clip, smul, sadd, sdiv.
  cbn [emap array_elementwise scalar_elementwise].
  rewrite !map_map. reflexivity.
Qed.

Lemma langmuir_hinshelwood_model_map (ts : list xreal) (k K c0 : xreal) :
  langmuir_hinshelwood_model ts k K c0
  = map (fun t => langmuir_hinshelwood_model t k K c0) ts.
Proof.
  unfold langmuir_hinshelwood_model, np_exp, np_log, smul, sadd, ssub,
    adds, asub, adiv.
  cbn [emap emap2 array_elementwise scalar_elementwise].
  rewrite !map_map.
  rewrite (zip_with_map XR.sub), (zip_with_map XR.div). reflexivity.
Qed.

End ModelFacts.

Section ModelClaims.
Local Open Scope R_scope.

(** C1.  At [t = 0] the first-order and the second-order model return
    [c0] for every finite rate constant, but the Langmuir-Hinshelwood
    model does not: with [k = K = 0.1] and [c0 = 10] it returns 0, since
    [term2] is 0 and the numerator reduces to [c0 - c0]. *)
Theorem model_value_at_time_zero :
  (forall k c0 : R, first_order_model (Fin 0) (Fin k) (Fin c0) = Fin c0) /\
  (forall k c0 : R, second_order_model (Fin 0) (Fin k) (Fin c0) = Fin c0) /\
  langmuir_hinshelwood_model (Fin 0) (Fin 0.1) (Fin 0.1) (Fin 10) = Fin 0 /\
  langmuir_hinshelwood_model (Fin 0) (Fin 0.1) (Fin 0.1) (Fin 10) <> Fin 10.
Proof.
  assert (Hlh : langmuir_hinshelwood_model (Fin 0) (Fin 0.1) (Fin 0.1)
                  (Fin 10) = Fin 0)
    by (apply langmuir_hinshelwood_at_zero; lra).
  repeat split.
  - apply first_order_at_zero.
  - apply second_order_at_zero.
  - exact Hlh.
  - rewrite Hlh. intros E. injection E as E. lra.
Qed.






(** C9.  On an array of N time points each model returns N predictions,
    the i-th being the model's value at the i-th time point, for any
    parameter values. *)
Theorem model_predictions_aligned (ts : list xreal) (k K c0 : xreal) :
  (length (first_order_model ts k c0) = length ts /\
   forall i, nth_error (first_order_model ts k c0) i
             = option_map (fun t => first_order_model t k c0)
                          (nth_error ts i)) /\
  (length (second_order_model ts k c0) = length ts /\
   forall i, nth_error (second_order_model ts k c0) i
             = option_map (fun t => second_order_model t k c0)
                          (nth_error ts i)) /\
  (length (langmuir_hinshelwood_model ts k K c0) = length ts /\
   forall i, nth_error (langmuir_hinshelwood_model ts k K c0) i
             = option_map (fun t => langmuir_hinshelwood_model t k K c0)
                          (nth_error ts i)).
Proof.
  rewrite first_order_model_map, second_order_model_map,
    langmuir_hinshelwood_model_map.
  repeat split; try apply length_map; intros i; apply nth_error_map.
Qed.

(** C10.  On the intended domain ([0 <= k <= 1000], [t >= 0], [c0 >= 0])
    the clamps change nothing: the first-order model is
    [c0 * exp(-k t)], with the exponential in (0, 1], and the
    second-order model is [c0 / (1 + k c0 t)], with a denominator of at
    least 1.  For [k < 0] both models are the models at [k = 0], the
    constant [c0]. *)
Theorem clamps_are_noops_on_domain (t k c0 : R) :
  (0 <= k <= 1e3 -> 0 <= t -> 0 <= c0 ->
     first_order_model (Fin t) (Fin k) (Fin c0)
     = Fin (c0 * exp (- k * t)) /\
     0 < exp (- k * t) <= 1 /\
     second_order_model (Fin t) (Fin k) (Fin c0)
     = Fin (c0 / (1 + k * c0 * t)) /\
     1 <= 1 + k * c0 * t) /\
  (k < 0 ->
     first_order_model (Fin t) (Fin k) (Fin c0)
     = first_order_model (Fin t) (Fin 0) (Fin c0) /\
     first_order_model (Fin t) (Fin k) (Fin c0) = Fin c0 /\
     second_order_model (Fin t) (Fin k) (Fin c0)
     = second_order_model (Fin t) (Fin 0) (Fin c0) /\
     second_order_model (Fin t) (Fin k) (Fin c0) = Fin c0).
Proof.
  split.
  - intros Hk Ht Hc0.
    assert (Hexp : 0 < exp (- k * t) <= 1).
    { split; [apply exp_pos |].
      replace (- k * t) with (- (k * t)) by ring.
      apply exp_neg_le_1. apply Rmult_le_pos; lra. }
    assert (Hden : 1 <= 1 + k * c0 * t).
    { assert (0 <= k * c0) by (apply Rmult_le_pos; lra).
      assert (0 <= k * c0 * t) by (apply Rmult_le_pos; lra). lra. }
    rewrite first_order_fin, second_order_fin, clamp_k_id by assumption.
    repeat split; try lra.
    + rewrite Rmax_left by lra. rewrite Rmin_left by lra. reflexivity.
    + rewrite Rmax_left by lra. reflexivity.
  - intros Hk.
    rewrite !first_order_fin, !second_order_fin.
    rewrite (clamp_k_neg k) by lra. rewrite (clamp_k_neg 0) by lra.
    replace (- 0 * t) with 0 by ring.
    replace (1 + 0 * c0 * t) with 1 by ring.
    rewrite exp_0.
    rewrite (Rmax_left 1 0) by lra. rewrite (Rmin_left 1 1e100) by lra.
    rewrite (Rmax_left 1 1e-10) by lra.
    repeat split; f_equal; field.
Qed.

Lemma clamps_are_noops_on_domain_witness :
  (first_order_model (Fin 5) (Fin 0.1) (Fin 10)
   = Fin (10 * exp (- (0.1) * 5))) /\
  (second_order_model (Fin 5) (Fin (-2)) (Fin 10) = Fin 10).
Proof.
  split.
  - destruct (clamps_are_noops_on_domain 5 0.1 10) as [Hdom _].
    destruct Hdom as [Hfirst _]; [lra | lra | lra | exact Hfirst].
  - destruct (clamps_are_noops_on_domain 5 (-2) 10) as [_ Hneg].
    destruct Hneg as (_ & _ & _ & Hsecond); [lra | exact Hsecond].
Defined.

End ModelClaims.

(* ================================================================== *)
(** * Part IV: the fitting drivers                                     *)
(* ================================================================== *)

Section FittingClaims.
Local Open Scope R_scope.

Variable cov : Type.
Variable curve_fit1 :
  (list xreal -> xreal -> list xreal) ->
  list xreal -> list xreal ->
  option xreal -> xreal * xreal ->
  result (xreal * cov).
Variable curve_fit2 :
  (list xreal -> xreal -> xreal -> list xreal) ->
  list xreal -> list xreal ->
  option (xreal * xreal) -> (xreal * xreal) * (xreal * xreal) ->
  result ((xreal * xreal) * cov).



End FittingClaims.


(* ================================================================== *)
(** * Part V: the validation gate                                      *)
(* ================================================================== *)

Section Binary64Order.

(** Swapping the operands of an IEEE comparison mirrors its outcome. *)
Lemma SFcompare_swap (x y : spec_float) :
  SFcompare y x = option_map CompOpp (SFcompare x y).
Proof.
  destruct x as [sx | sx | | sx mx ex], y as [sy | sy | | sy my ey];
    try destruct sx; try destruct sy; try reflexivity.
  - cbn. rewrite (Z.compare_antisym ey ex).
    destruct (ey ?= ex)%Z; cbn; try reflexivity.
    f_equal. rewrite CompOpp_involutive.
    exact (Pos.compare_cont_antisym my mx Eq).
  - cbn. rewrite (Z.compare_antisym ey ex).
    destruct (ey ?= ex)%Z; cbn; try reflexivity.
    f_equal. symmetry. exact (Pos.compare_cont_antisym mx my Eq).
Qed.

Lemma SFcompare_defined (x y : spec_float) :
  x <> S754_nan -> y <> S754_nan -> SFcompare x y <> None.
Proof.
  intros Hx Hy.
  destruct x as [sx | sx | | sx mx ex], y as [sy | sy | | sy my ey];
    try congruence; discriminate.
Qed.

Lemma is_nan_false (x : float) :
  B64.is_nan x = false -> Prim2SF x <> S754_nan.
Proof.
  unfold B64.is_nan, PrimFloat.is_nan. rewrite eqb_spec.
  intros Hnan Hx. rewrite Hx in Hnan. discriminate.
Qed.

(** Without NaN, [t1 >= t2] is the negation of [t1 < t2]. *)
Lemma leb_swap_ltb (x y : float) :
  B64.is_nan x = false -> B64.is_nan y = false ->
  PrimFloat.leb y x = negb (PrimFloat.ltb x y).
Proof.
  intros Hx Hy. apply is_nan_false in Hx, Hy.
  rewrite leb_spec, ltb_spec. unfold SFleb, SFltb.
  rewrite SFcompare_swap.
  pose proof (SFcompare_defined _ _ Hx Hy) as Hdef.
  destruct (SFcompare (Prim2SF x) (Prim2SF y)) as [[| |] |];
    try reflexivity; congruence.
Qed.

End Binary64Order.

Section ValidationClaims.

Lemma consecutive_cons (x y : float) (l : list float) :
  consecutive (x :: y :: l) = (x, y) :: consecutive (y :: l).
Proof. reflexivity. Qed.

Lemma not_any_forallb {X : Type} (p : X -> bool) (l : list X) :
  negb (any p l) = forallb (fun x => negb (p x)) l.
Proof.
  unfold any. induction l as [| x l IH]; cbn; [reflexivity |].
  now rewrite negb_orb, IH.
Qed.

(** On NaN-free times, the order test of the code is the negation of
    "each consecutive pair increases". *)
Lemma order_test_strictly_increasing (ts : list float) :
  Forall non_nan ts ->
  negb (any (fun '(t1, t2) => PrimFloat.leb t2 t1) (consecutive ts))
  = strictly_increasing ts.
Proof.
  induction ts as [| x l IH]; intros Hnan; [reflexivity |].
  destruct l as [| y l']; [reflexivity |].
  rewrite consecutive_cons.
  inversion Hnan as [| ? ? Hx Hrest]; subst.
  inversion Hrest as [| ? ? Hy _]; subst.
  cbn [any existsb strictly_increasing].
  rewrite negb_orb, (leb_swap_ltb x y Hx Hy), negb_involutive.
  f_equal. exact (IH Hrest).
Qed.

(** The five [if] statements, read off as five independent reports; the
    last one in the code's own terms. *)
Lemma validate_data_reports (time_points conc_points : list float) :
  validate_data time_points conc_points
  = report (lengths_equal time_points conc_points) msg_length
    ++ report (enough_points time_points) msg_count
    ++ report (no_negative time_points) msg_time_negative
    ++ report (no_negative conc_points) msg_conc_negative
    ++ report (negb (any (fun '(t1, t2) => PrimFloat.leb t2 t1)
                         (consecutive time_points)))
              msg_time_order.
Proof.
  unfold validate_data, lengths_equal, enough_points, no_negative.
  rewrite <- !not_any_forallb.
  rewrite (Nat.leb_antisym (length time_points) 3).
  unfold append_if, report.
  destruct (Nat.eqb _ _), (Nat.ltb _ _),
    (any _ time_points), (any _ conc_points), (any _ (consecutive _));
    reflexivity.
Qed.

Lemma app_nil_iff {X : Type} (l l' : list X) :
  l ++ l' = [] <-> l = [] /\ l' = [].
Proof.
  split; [apply app_eq_nil | intros [-> ->]; reflexivity].
Qed.

Lemma report_nil (passed : bool) (m : string) :
  report passed m = [] <-> passed = true.
Proof. destruct passed; cbn; split; congruence. Qed.

(** C3, as stated, fails on a time series that contains NaN: no
    comparison with NaN holds, so [0, NaN, 1] is not strictly increasing,
    yet nothing is reported. *)
Lemma validate_data_accepts_nan_times :
  strictly_increasing [0; B64.nan; 1]%float = false /\
  validate_data [0; B64.nan; 1]%float [1; 1; 1]%float = [].
Proof. split; vm_compute; reflexivity. Qed.

(** C3, amended.  On time points free of NaN, [validate_data] returns, in
    this order, one message for each failed check among: equal lengths,
    at least 3 time points, no negative time, no negative concentration,
    strictly increasing time.  Every check is evaluated whatever the
    others give, and the list is empty exactly when all five pass.  With
    fewer than 3 points in either sequence the list is never empty,
    NaN or not. *)
Theorem validate_data_reports_failed_checks
  (time_points conc_points : list float) :
  (Forall non_nan time_points ->
     validate_data time_points conc_points
     = report (lengths_equal time_points conc_points) msg_length
       ++ report (enough_points time_points) msg_count
       ++ report (no_negative time_points) msg_time_negative
       ++ report (no_negative conc_points) msg_conc_negative
       ++ report (strictly_increasing time_points) msg_time_order) /\
  (Forall non_nan time_points ->
     (validate_data time_points conc_points = [] <->
      lengths_equal time_points conc_points = true /\
      enough_points time_points = true /\
      no_negative time_points = true /\
      no_negative conc_points = true /\
      strictly_increasing time_points = true)) /\
  ((length time_points < 3 \/ length conc_points < 3)%nat ->
     validate_data time_points conc_points <> []).
Proof.
  assert (Hshape : Forall non_nan time_points ->
     validate_data time_points conc_points
     = report (lengths_equal time_points conc_points) msg_length
       ++ report (enough_points time_points) msg_count
       ++ report (no_negative time_points) msg_time_negative
       ++ report (no_negative conc_points) msg_conc_negative
       ++ report (strictly_increasing time_points) msg_time_order).
  { intros Hnan. rewrite validate_data_reports.
    now rewrite order_test_strictly_increasing. }
  split; [exact Hshape |]. split.
  - intros Hnan. rewrite (Hshape Hnan).
    rewrite !app_nil_iff, !report_nil. tauto.
  - intros Hfew. rewrite validate_data_reports.
    unfold lengths_equal, enough_points.
    destruct (Nat.leb_spec 3 (length time_points)) as [Hge | Hlt].
    + destruct (Nat.eqb_spec (length time_points) (length conc_points))
        as [Heq | Hne]; [lia | discriminate].
    + destruct (Nat.eqb _ _); discriminate.
Qed.

Lemma validate_data_reports_failed_checks_witness :
  validate_data [0; 5; 3]%float [10; 8; 6]%float = [msg_time_order] /\
  validate_data [0; 5; 10]%float [10; 8; -6]%float = [msg_conc_negative] /\
  validate_data [0; 5]%float [10; 8; 6]%float <> [].
Proof.
  assert (Hnan : forall a b c : float,
             non_nan a -> non_nan b -> non_nan c ->
             Forall non_nan [a; b; c])
    by (intros; repeat constructor; assumption).
  split; [| split].
  - rewrite (proj1 (validate_data_reports_failed_checks
                      [0; 5; 3]%float [10; 8; 6]%float));
      [reflexivity | apply Hnan; reflexivity].
  - rewrite (proj1 (validate_data_reports_failed_checks
                      [0; 5; 10]%float [10; 8; -6]%float));
      [reflexivity | apply Hnan; reflexivity].
  - apply (proj2 (proj2 (validate_data_reports_failed_checks
                           [0; 5]%float [10; 8; 6]%float))).
    left. cbn. lia.
Defined.

(** The two validation scenarios of the specification. *)
Example validate_data_accepts_sample :
  validate_data [0; 5; 10]%float [10; 8; 6]%float = [].
Proof. vm_compute. reflexivity. Qed.

Example validate_data_rejects_unordered :
  validate_data [0; 5; 3]%float [10; 8; 6]%float = [msg_time_order].
Proof. vm_compute. reflexivity. Qed.

End ValidationClaims.

(* ================================================================== *)
(** * Part VI: the statistics calculator                               *)
(* ================================================================== *)

Section Binary64Arith.
Local Open Scope float_scope.

(** A finite float minus itself is +0. *)
Lemma sub_self (x : float) : B64.is_finite x = true -> x - x = 0.
Proof.
  unfold B64.is_finite. intros Hfin.
  apply Prim2SF_inj. rewrite sub_spec.
  destruct (Prim2SF x) as [s | s | | s m e]; try discriminate.
  - destruct s; reflexivity.
  - unfold SF64sub, SFsub. cbv zeta. rewrite Z.sub_diag. reflexivity.
Qed.

(** Zero divided by a positive float or by +inf is +0. *)
Lemma zero_div_pos (y : float) : (0 <? y) = true -> 0 / y = 0.
Proof.
  rewrite ltb_spec. intros Hpos.
  apply Prim2SF_inj. rewrite div_spec.
  change (Prim2SF 0) with (S754_zero false) in *.
  destruct (Prim2SF y) as [s | s | | s m e]; try discriminate;
    destruct s; try discriminate; reflexivity.
Qed.

Lemma binary_round_aux_sign (m e : Z) (l : location) :
  sign_clear (binary_round_aux prec emax false m e l) = true.
Proof.
  unfold binary_round_aux.
  destruct (shr_fexp prec emax m e l) as [mrs' e'].
  destruct (shr_fexp prec emax _ e' loc_Exact) as [mrs'' e''].
  destruct (shr_m mrs''); [reflexivity | | reflexivity].
  destruct (Z.leb e'' (emax - prec)); reflexivity.
Qed.

(** A square never has its sign set. *)
Lemma mul_self_sign (x : float) : sign_clear (Prim2SF (x * x)) = true.
Proof.
  rewrite mul_spec.
  destruct (Prim2SF x) as [s | s | | s m e];
    [destruct s; reflexivity | destruct s; reflexivity | reflexivity |].
  destruct s; exact (binary_round_aux_sign _ _ _).
Qed.

(** Neither has a sum of two floats whose signs are not set. *)
Lemma add_sign (x y : float) :
  sign_clear (Prim2SF x) = true -> sign_clear (Prim2SF y) = true ->
  sign_clear (Prim2SF (x + y)) = true.
Proof.
  rewrite add_spec.
  destruct (Prim2SF x) as [sx | sx | | sx mx ex],
           (Prim2SF y) as [sy | sy | | sy my ey];
    cbn [sign_clear]; intros Hx Hy;
    try (apply negb_true_iff in Hx; subst sx);
    try (apply negb_true_iff in Hy; subst sy);
    try reflexivity.
  unfold SF64add, SFadd. cbv zeta. cbn [cond_Zopp Z.add binary_normalize].
  unfold binary_round.
  destruct (shl_align _ _ _) as [mz ez].
  apply binary_round_aux_sign.
Qed.




Lemma np_sum_zeros {X : Type} (l : list X) :
  fold_left PrimFloat.add (map (fun _ => 0) l) 0 = 0.
Proof. induction l as [| x l IH]; [reflexivity | exact IH]. Qed.

Lemma zip_sub_self (a : list float) :
  Forall (fun x => B64.is_finite x = true) a ->
  B64.zip_with PrimFloat.sub a a = map (fun _ => 0) a.
Proof.
  induction 1 as [| x l Hx _ IH]; [reflexivity |].
  cbn [B64.zip_with map]. now rewrite IH, (sub_self x Hx).
Qed.

Lemma broadcast2_self (f : float -> float -> float) (a : list float) :
  B64.broadcast2 f a a = Ok (B64.zip_with f a a).
Proof. unfold B64.broadcast2. now rewrite Nat.eqb_refl. Qed.

End Binary64Arith.

Section StatisticsClaims.
Local Open Scope float_scope.

Lemma calculate_statistics_same_length (predicted actual : list float) :
  length predicted = length actual ->
  calculate_statistics predicted actual
  = let residuals := B64.zip_with PrimFloat.sub actual predicted in
    Ok {| rmse := B64.np_sqrt (B64.np_mean (B64.square residuals));
          r2 := 1 - B64.np_sum (B64.square residuals) / ss_tot actual;
          mae := B64.np_mean (B64.np_abs residuals);
          mse := B64.np_mean (B64.square residuals) |}.
Proof.
  intros Hlen. unfold calculate_statistics, B64.broadcast2.
  rewrite Hlen, Nat.eqb_refl. reflexivity.
Qed.










End StatisticsClaims.


(* ================================================================== *)
(** * Part VII: further properties of the model functions              *)
(* ================================================================== *)

Section ModelRange.
Local Open Scope R_scope.

Lemma clip_k_cap (k : xreal) :
  (k = PInf \/ exists r, k = Fin r /\ 1e3 <= r) ->
  XR.clip k (Fin 0) (Fin 1e3) = XR.clip (Fin 1e3) (Fin 0) (Fin 1e3).
Proof.
  intros [-> | (r & -> & Hr)].
  - rewrite clip_k, clamp_k_id by lra. reflexivity.
  - rewrite !clip_k. f_equal. rewrite (clamp_k_id 1e3) by lra.
    unfold clamp_k. rewrite (Rmax_left r 0) by lra.
    apply Rmin_right. lra.
Qed.

(** X1.  A rate constant of 1000 or more, +inf included, is used as 1000:
    whatever the times (a scalar or an array) and the other arguments, each
    model gives what it gives at 1000.  The same holds for the adsorption
    constant [K] of the Langmuir-Hinshelwood model. *)
Theorem rate_constant_saturates {A : Type} `{Elementwise A}
  (t : A) (k other c0 : xreal) :
  (k = PInf \/ exists r, k = Fin r /\ 1e3 <= r) ->
  first_order_model t k c0 = first_order_model t (Fin 1e3) c0 /\
  second_order_model t k c0 = second_order_model t (Fin 1e3) c0 /\
  langmuir_hinshelwood_model t k other c0
  = langmuir_hinshelwood_model t (Fin 1e3) other c0 /\
  langmuir_hinshelwood_model t other k c0
  = langmuir_hinshelwood_model t other (Fin 1e3) c0.
Proof.
  intros Hcap. pose proof (clip_k_cap k Hcap) as Hclip.
  unfold first_order_model, second_order_model, langmuir_hinshelwood_model.
  rewrite Hclip. repeat split; reflexivity.
Qed.

Lemma rate_constant_saturates_witness :
  first_order_model (map Fin [0; 5; 10]) PInf (Fin 10)
  = first_order_model (map Fin [0; 5; 10]) (Fin 1e3) (Fin 10) /\
  second_order_model (Fin 5) (Fin 2500) (Fin 10)
  = second_order_model (Fin 5) (Fin 1e3) (Fin 10).
Proof.
  split.
  - apply (rate_constant_saturates (map Fin [0; 5; 10]) PInf NaN (Fin 10)).
    left. reflexivity.
  - apply (rate_constant_saturates (Fin 5) (Fin 2500) NaN (Fin 10)).
    right. exists 2500. split; [reflexivity | lra].
Defined.




End ModelRange.

Section ModelShape.
Local Open Scope R_scope.








End ModelShape.

Section NaNPropagation.

Lemma mul_nan_r (x : xreal) : XR.mul x NaN = NaN.
Proof. destruct x; reflexivity. Qed.

Lemma add_nan_r (x : xreal) : XR.add x NaN = NaN.
Proof. destruct x; reflexivity. Qed.

Lemma sub_nan_r (x : xreal) : XR.sub x NaN = NaN.
Proof. destruct x; reflexivity. Qed.

Lemma div_nan_r (x : xreal) : XR.div x NaN = NaN.
Proof. destruct x; reflexivity. Qed.

Lemma clip_nan (lo hi : xreal) : XR.clip NaN lo hi = NaN.
Proof. reflexivity. Qed.

Lemma first_order_nan (t k c0 : xreal) :
  k = NaN \/ c0 = NaN -> first_order_model t k c0 = NaN.
Proof.
  unfold first_order_model, np_exp, np_clip, smul.
  cbn [emap scalar_elementwise].
  intros [-> | ->]; [| reflexivity].
  rewrite clip_nan. cbn [XR.neg XR.mul XR.exp].
  rewrite ?clip_nan. apply mul_nan_r.
Qed.

Lemma second_order_nan (t k c0 : xreal) :
  k = NaN \/ c0 = NaN -> second_order_model t k c0 = NaN.
Proof.
  unfold second_order_model, np_clip, smul, sadd, sdiv.
  cbn [emap scalar_elementwise].
  intros [-> | ->]; [| reflexivity].
  rewrite clip_nan. cbn [XR.mul XR.add].
  rewrite ?clip_nan. apply div_nan_r.
Qed.

Lemma langmuir_hinshelwood_nan (t k K c0 : xreal) :
  k = NaN \/ K = NaN \/ c0 = NaN ->
  langmuir_hinshelwood_model t k K c0 = NaN.
Proof.
  unfold langmuir_hinshelwood_model, np_exp, np_log, smul, sadd, ssub,
    adds, asub, adiv.
  cbn [emap emap2 scalar_elementwise].
  intros [-> | [-> | ->]].
  - rewrite clip_nan. cbn [XR.neg XR.mul XR.exp].
    rewrite !mul_nan_r. cbn [XR.log]. rewrite !sub_nan_r.
    reflexivity.
  - rewrite (clip_nan (Fin 0)). reflexivity.
  - rewrite !mul_nan_r. reflexivity.
Qed.

(** X7.  The clamps do not absorb NaN.  If the rate constant or [c0] is
    NaN, every prediction of the first-order and of the second-order
    model is NaN; for the Langmuir-Hinshelwood model the same holds as
    soon as [k], [K] or [c0] is NaN.  The times may be anything. *)
Theorem nan_parameter_gives_nan_predictions
  (ts : list xreal) (k K c0 : xreal) :
  (k = NaN \/ c0 = NaN ->
     first_order_model ts k c0 = map (fun _ => NaN) ts /\
     second_order_model ts k c0 = map (fun _ => NaN) ts) /\
  (k = NaN \/ K = NaN \/ c0 = NaN ->
     langmuir_hinshelwood_model ts k K c0 = map (fun _ => NaN) ts).
Proof.
  split.
  - intros Hnan.
    rewrite first_order_model_map, second_order_model_map.
    split; apply map_ext; intros t;
      [now apply first_order_nan | now apply second_order_nan].
  - intros Hnan. rewrite langmuir_hinshelwood_model_map.
    apply map_ext. intros t. now apply langmuir_hinshelwood_nan.
Qed.

Lemma nan_parameter_gives_nan_predictions_witness :
  first_order_model [Fin 0; Fin 5; PInf] NaN (Fin 10) = [NaN; NaN; NaN] /\
  langmuir_hinshelwood_model [Fin 0; Fin 5] (Fin 1) NaN (Fin 10)
  = [NaN; NaN].
Proof.
  split.
  - destruct (nan_parameter_gives_nan_predictions
                [Fin 0; Fin 5; PInf] NaN NaN (Fin 10)) as [Hfs _].
    destruct Hfs as [Hfirst _]; [left; reflexivity | exact Hfirst].
  - destruct (nan_parameter_gives_nan_predictions
                [Fin 0; Fin 5] (Fin 1) NaN (Fin 10)) as [_ Hlh].
    apply Hlh. right. left. reflexivity.
Defined.

End NaNPropagation.

(* ================================================================== *)
(** * Part VIII: further properties of the fitting drivers             *)
(* ================================================================== *)

Section FitStatisticsRange.
Local Open Scope R_scope.

Lemma square_nonneg (x : xreal) : nonneg_or_nan (XR.mul x x).
Proof.
  destruct x as [a | | |]; cbn; trivial. nra.
Qed.

Lemma add_nonneg (x y : xreal) :
  nonneg_or_nan x -> nonneg_or_nan y -> nonneg_or_nan (XR.add x y).
Proof.
  destruct x as [a | | |], y as [b | | |]; cbn; trivial; lra.
Qed.

Lemma div_nonneg (x y : xreal) :
  nonneg_or_nan x -> nonneg_or_nan y -> nonneg_or_nan (XR.div x y).
Proof.
  destruct x as [a | | |], y as [b | | |]; cbn; trivial; try lra;
    intros Ha Hb.
  - destruct (Req_dec_T b 0) as [-> | Hne].
    + unfold XR.by_sign.
      destruct (total_order_T a 0) as [[Hlt | Heq] | Hgt]; cbn; trivial; lra.
    + cbn. apply Rmult_le_pos; [lra |].
      left. apply Rinv_0_lt_compat. lra.
  - unfold XR.by_sign.
    destruct (total_order_T b 0) as [[Hlt | Heq] | Hgt]; cbn; trivial; lra.
Qed.

Lemma sqrt_nonneg (x : xreal) : nonneg_or_nan (XR.sqrt x).
Proof.
  destruct x as [a | | |]; cbn; trivial. unfold XR.by_sign.
  destruct (total_order_T a 0) as [[Hlt | Heq] | Hgt]; cbn; trivial;
    [lra | apply sqrt_pos].
Qed.

Lemma one_minus_nonneg (x : xreal) :
  nonneg_or_nan x -> at_most_one_or_nan (XR.sub (Fin 1) x).
Proof.
  destruct x as [a | | |]; cbn; trivial; lra.
Qed.

Lemma sum_squares_from_nonneg (l : list xreal) (acc : xreal) :
  nonneg_or_nan acc ->
  nonneg_or_nan (fold_left XR.add (XA.square l) acc).
Proof.
  revert acc. induction l as [| x l IH]; intros acc Hacc; [exact Hacc |].
  cbn [XA.square map fold_left]. apply IH.
  apply add_nonneg; [exact Hacc | apply square_nonneg].
Qed.

Lemma sum_squares_nonneg (l : list xreal) :
  nonneg_or_nan (XA.np_sum (XA.square l)).
Proof. apply sum_squares_from_nonneg. cbn. lra. Qed.

Lemma fit_rmse_nonneg (residuals : list xreal) :
  nonneg_or_nan (fit_rmse residuals).
Proof. apply sqrt_nonneg. Qed.

Lemma fit_r2_at_most_one (residuals conc_points : list xreal) :
  at_most_one_or_nan (fit_r2 residuals conc_points).
Proof.
  apply one_minus_nonneg, div_nonneg; apply sum_squares_nonneg.
Qed.

Variable cov : Type.
Variable curve_fit1 :
  (list xreal -> xreal -> list xreal) ->
  list xreal -> list xreal ->
  option xreal -> xreal * xreal ->
  result (xreal * cov).
Variable curve_fit2 :
  (list xreal -> xreal -> xreal -> list xreal) ->
  list xreal -> list xreal ->
  option (xreal * xreal) -> (xreal * xreal) * (xreal * xreal) ->
  result ((xreal * xreal) * cov).

(** X8.  Whatever the solver returns and whatever the data, a tuple
    returned by a driver carries an R² that is NaN, -inf or at most 1, and
    an RMSE that is NaN, +inf or not negative. *)
Theorem fit_statistics_range (time_points conc_points : list xreal)
  (c0 : xreal) :
  (forall k r2 rmse,
     fit_first_order cov curve_fit1 time_points conc_points c0
     = Ok (k, r2, rmse) ->
     at_most_one_or_nan r2 /\ nonneg_or_nan rmse) /\
  (forall k r2 rmse,
     fit_second_order cov curve_fit1 time_points conc_points c0
     = Ok (k, r2, rmse) ->
     at_most_one_or_nan r2 /\ nonneg_or_nan rmse) /\
  (forall k K r2 rmse,
     fit_langmuir_hinshelwood cov curve_fit2 time_points conc_points c0
     = Ok (k, K, r2, rmse) ->
     at_most_one_or_nan r2 /\ nonneg_or_nan rmse).
Proof.
  unfold fit_first_order, fit_second_order, fit_langmuir_hinshelwood.
  split; [| split].
  - intros k r2 rmse Hfit.
    destruct (curve_fit1 _ _ _ _ _) as [[k' pcov] | e];
      cbn [bind] in Hfit; [| discriminate Hfit].
    destruct (XA.broadcast2 _ _ _) as [res | e];
      cbn [bind] in Hfit; [| discriminate Hfit].
    inversion Hfit; subst.
    split; [apply fit_r2_at_most_one | apply fit_rmse_nonneg].
  - intros k r2 rmse Hfit.
    destruct (curve_fit1 _ _ _ _ _) as [[k' pcov] | e];
      cbn [bind] in Hfit; [| discriminate Hfit].
    destruct (XA.broadcast2 _ _ _) as [res | e];
      cbn [bind] in Hfit; [| discriminate Hfit].
    inversion Hfit; subst.
    split; [apply fit_r2_at_most_one | apply fit_rmse_nonneg].
  - intros k K r2 rmse Hfit.
    destruct (curve_fit2 _ _ _ _ _) as [[[k' K'] pcov] | e];
      cbn [bind] in Hfit; [| discriminate Hfit].
    destruct (XA.broadcast2 _ _ _) as [res | e];
      cbn [bind] in Hfit; [| discriminate Hfit].
    inversion Hfit; subst.
    split; [apply fit_r2_at_most_one | apply fit_rmse_nonneg].
Qed.

End FitStatisticsRange.

Lemma fit_statistics_range_witness :
  let converging1 := fun _ _ _ _ _ => Ok (Fin 0.02, tt) in
  let ts := map Fin [0; 5; 10]%R in
  let cs := map Fin [10; 8; 6]%R in
  exists r2 rmse,
    fit_first_order unit converging1 ts cs (Fin 10) = Ok (Fin 0.02, r2, rmse)
    /\ at_most_one_or_nan r2 /\ nonneg_or_nan rmse.
Proof.
  intros converging1 ts cs.
  eexists. eexists. split; [reflexivity |].
  exact (proj1 (fit_statistics_range unit converging1
                  (fun _ _ _ _ _ => Raise (RuntimeError msg_not_converged))
                  ts cs (Fin 10))
           _ _ _ eq_refl).
Defined.

Section ExactFit.
Local Open Scope R_scope.







Variable cov : Type.
Variable curve_fit1 :
  (list xreal -> xreal -> list xreal) ->
  list xreal -> list xreal ->
  option xreal -> xreal * xreal ->
  result (xreal * cov).
Variable curve_fit2 :
  (list xreal -> xreal -> xreal -> list xreal) ->
  list xreal -> list xreal ->
  option (xreal * xreal) -> (xreal * xreal) * (xreal * xreal) ->
  result ((xreal * xreal) * cov).


End ExactFit.


(* ================================================================== *)
(** * Part IX: further properties of the validation gate               *)
(* ================================================================== *)

Section ValidationShape.

(** X10.  Whatever the input, NaN included, [validate_data] returns at most
    five messages, all among its five, and none twice. *)
Theorem validate_data_messages_distinct
  (time_points conc_points : list float) :
  (length (validate_data time_points conc_points) <= 5)%nat /\
  NoDup (validate_data time_points conc_points) /\
  incl (validate_data time_points conc_points)
       [msg_length; msg_count; msg_time_negative; msg_conc_negative;
        msg_time_order].
Proof.
  rewrite validate_data_reports. unfold report.
  destruct (lengths_equal _ _), (enough_points _), (no_negative time_points),
    (no_negative conc_points), (negb _);
    (split; [cbn; lia | split]);
    try (repeat constructor; cbn; intuition discriminate);
    intros m Hm; cbn in Hm |- *; tauto.
Qed.

(** X11.  With no time point at all, the count message is always reported
    and no message about the time values ever is: the result is the length
    message if there are concentrations, the count message, and the
    concentration-sign message if a concentration is negative. *)
Theorem validate_data_without_times (conc_points : list float) :
  validate_data [] conc_points
  = report (match conc_points with [] => true | _ => false end) msg_length
    ++ [msg_count]
    ++ report (no_negative conc_points) msg_conc_negative.
Proof.
  rewrite validate_data_reports.
  change (consecutive []) with (@nil (float * float)).
  cbn [any existsb negb report]. rewrite app_nil_r.
  destruct conc_points as [| c l]; reflexivity.
Qed.

End ValidationShape.

Section AcceptedSeries.

Lemma SFltb_trans (x y z : spec_float) :
  SFltb x y = true -> SFltb y z = true -> SFltb x z = true.
Proof.
  unfold SFltb.
  destruct x as [sx | sx | | sx mx ex], y as [sy | sy | | sy my ey],
    z as [sz | sz | | sz mz ez];
    try destruct sx; try destruct sy; try destruct sz;
    cbn; try discriminate; try reflexivity.
  all: change (PosDef.Pos.compare_cont Eq mx my) with (Pos.compare mx my);
    change (PosDef.Pos.compare_cont Eq my mz) with (Pos.compare my mz);
    change (PosDef.Pos.compare_cont Eq mx mz) with (Pos.compare mx mz);
    destruct (Z.compare_spec ex ey), (Z.compare_spec ey ez),
      (Z.compare_spec ex ez); subst; try lia; try discriminate;
      try reflexivity;
    destruct (Pos.compare_spec mx my), (Pos.compare_spec my mz),
      (Pos.compare_spec mx mz); subst; cbn; try lia; try discriminate;
      try reflexivity.
Qed.

Lemma ltb_trans (x y z : float) :
  PrimFloat.ltb x y = true -> PrimFloat.ltb y z = true ->
  PrimFloat.ltb x z = true.
Proof. rewrite !ltb_spec. apply SFltb_trans. Qed.

Lemma ltb_irrefl (x : float) : PrimFloat.ltb x x = false.
Proof.
  rewrite ltb_spec. unfold SFltb.
  destruct (Prim2SF x) as [s | s | | s m e]; try destruct s; cbn;
    try reflexivity.
  all: rewrite Z.compare_refl;
    change (PosDef.Pos.compare_cont Eq m m) with (Pos.compare m m);
    rewrite Pos.compare_refl; reflexivity.
Qed.

(** Increasing step by step is increasing across any distance. *)
Lemma strictly_increasing_pairwise (ts : list float) :
  strictly_increasing ts = true ->
  ForallOrdPairs (fun a b => PrimFloat.ltb a b = true) ts.
Proof.
  induction ts as [| x l IH]; intros Hinc; [constructor |].
  destruct l as [| y l']; [repeat constructor |].
  cbn [strictly_increasing] in Hinc.
  apply andb_true_iff in Hinc as [Hxy Hrest].
  specialize (IH Hrest). constructor; [| exact IH].
  inversion IH as [| ? ? Hy _]; subst.
  constructor; [exact Hxy |].
  eapply Forall_impl; [| exact Hy].
  intros z Hyz. exact (ltb_trans x y z Hxy Hyz).
Qed.

Lemma pairwise_ltb_nodup (ts : list float) :
  ForallOrdPairs (fun a b => PrimFloat.ltb a b = true) ts -> NoDup ts.
Proof.
  induction 1 as [| x l Hx _ IH]; constructor; [| exact IH].
  intros Hin. rewrite Forall_forall in Hx.
  specialize (Hx x Hin). rewrite ltb_irrefl in Hx. discriminate.
Qed.

(** X12.  A series that [validate_data] accepts and whose times hold no NaN
    has as many concentrations as times, at least three of them, no
    negative time, and times that increase across any distance: every
    earlier time is below every later one, so no time point is repeated. *)
Theorem accepted_series_is_sorted_and_distinct
  (time_points conc_points : list float) :
  Forall non_nan time_points ->
  validate_data time_points conc_points = [] ->
  length conc_points = length time_points /\
  (3 <= length time_points)%nat /\
  Forall (fun t => PrimFloat.ltb t 0%float = false) time_points /\
  ForallOrdPairs (fun a b => PrimFloat.ltb a b = true) time_points /\
  NoDup time_points.
Proof.
  intros Hnan Hok. rewrite validate_data_reports in Hok.
  rewrite (order_test_strictly_increasing _ Hnan) in Hok.
  rewrite !app_nil_iff, !report_nil in Hok.
  destruct Hok as (Hlen & Hcount & Htime & _ & Hinc).
  apply Nat.eqb_eq in Hlen. apply Nat.leb_le in Hcount.
  pose proof (strictly_increasing_pairwise _ Hinc) as Hpairs.
  repeat split; try assumption; try (now symmetry).
  - unfold no_negative in Htime. rewrite forallb_forall in Htime.
    apply Forall_forall. intros t Ht.
    apply negb_true_iff. exact (Htime t Ht).
  - exact (pairwise_ltb_nodup _ Hpairs).
Qed.

Lemma accepted_series_is_sorted_and_distinct_witness :
  ForallOrdPairs (fun a b => PrimFloat.ltb a b = true) [0; 5; 10]%float /\
  NoDup [0; 5; 10]%float.
Proof.
  destruct (accepted_series_is_sorted_and_distinct
              [0; 5; 10]%float [10; 8; 6]%float)
    as (_ & _ & _ & Hpairs & Hnodup).
  - repeat constructor.
  - reflexivity.
  - split; assumption.
Defined.

End AcceptedSeries.

(* ================================================================== *)
(** * Part X: further properties of the statistics calculator          *)
(* ================================================================== *)

Section StatisticsSign.
Local Open Scope float_scope.

Lemma abs_sign (x : float) : sign_clear (Prim2SF (PrimFloat.abs x)) = true.
Proof.
  rewrite abs_spec. destruct (Prim2SF x); reflexivity.
Qed.

Lemma div_sign (x y : float) :
  sign_clear (Prim2SF x) = true -> sign_clear (Prim2SF y) = true ->
  sign_clear (Prim2SF (x / y)) = true.
Proof.
  rewrite div_spec.
  destruct (Prim2SF x) as [sx | sx | | sx mx ex],
           (Prim2SF y) as [sy | sy | | sy my ey];
    cbn [sign_clear]; intros Hx Hy;
    try (apply negb_true_iff in Hx; subst sx);
    try (apply negb_true_iff in Hy; subst sy);
    try reflexivity.
  unfold SF64div, SFdiv.
  destruct (SFdiv_core_binary prec emax (Z.pos mx) ex (Z.pos my) ey)
    as [[mz ez] lz].
  apply binary_round_aux_sign.
Qed.

Lemma sqrt_sign (x : float) :
  sign_clear (Prim2SF x) = true -> sign_clear (Prim2SF (PrimFloat.sqrt x)) = true.
Proof.
  rewrite sqrt_spec.
  destruct (Prim2SF x) as [s | s | | s m e]; cbn [sign_clear]; intros Hx;
    try (apply negb_true_iff in Hx; subst s); try reflexivity.
  unfold SF64sqrt, SFsqrt.
  destruct (SFsqrt_core_binary prec emax (Z.pos m) e) as [[mz ez] lz].
  apply binary_round_aux_sign.
Qed.

Lemma of_nat_sign (n : nat) : sign_clear (Prim2SF (B64.of_nat n)) = true.
Proof.
  unfold B64.of_nat. rewrite of_uint63_spec.
  pose proof (Uint63.to_Z_bounded (Uint63.of_Z (Z.of_nat n))) as [Hlo _].
  destruct (Uint63.to_Z _) as [| p | p]; [reflexivity | | lia].
  cbn [binary_normalize]. unfold binary_round.
  destruct (shl_align _ _ _) as [mz ez].
  apply binary_round_aux_sign.
Qed.

Lemma fold_add_sign (l : list float) (acc : float) :
  Forall (fun x => sign_clear (Prim2SF x) = true) l ->
  sign_clear (Prim2SF acc) = true ->
  sign_clear (Prim2SF (fold_left PrimFloat.add l acc)) = true.
Proof.
  intros Hl. revert acc.
  induction Hl as [| x l Hx _ IH]; intros acc Hacc; [exact Hacc |].
  cbn [fold_left]. apply IH. now apply add_sign.
Qed.

Lemma np_mean_sign (l : list float) :
  Forall (fun x => sign_clear (Prim2SF x) = true) l ->
  sign_clear (Prim2SF (B64.np_mean l)) = true.
Proof.
  intros Hl. unfold B64.np_mean, B64.np_sum.
  apply div_sign; [| apply of_nat_sign].
  apply fold_add_sign; [exact Hl | reflexivity].
Qed.

Lemma square_all_sign (l : list float) :
  Forall (fun x => sign_clear (Prim2SF x) = true) (B64.square l).
Proof.
  unfold B64.square. apply Forall_map, Forall_forall.
  intros x _. apply mul_self_sign.
Qed.

Lemma abs_all_sign (l : list float) :
  Forall (fun x => sign_clear (Prim2SF x) = true) (B64.np_abs l).
Proof.
  unfold B64.np_abs. apply Forall_map, Forall_forall.
  intros x _. apply abs_sign.
Qed.

Lemma sign_clear_not_negative (x : float) :
  sign_clear (Prim2SF x) = true -> (x <? 0) = false.
Proof.
  rewrite ltb_spec. change (Prim2SF 0) with (S754_zero false).
  destruct (Prim2SF x) as [s | s | | s m e]; cbn [sign_clear]; intros Hx;
    try (apply negb_true_iff in Hx; subst s); reflexivity.
Qed.

(** X13.  The error metrics are never negative: whenever
    [calculate_statistics] returns, RMSE, MAE and MSE each are NaN, +0,
    +inf or a positive float, so none compares below zero. *)
Theorem error_metrics_never_negative (predicted actual : list float)
  (s : statistics) :
  calculate_statistics predicted actual = Ok s ->
  (sign_clear (Prim2SF (rmse s)) = true /\ (rmse s <? 0) = false) /\
  (sign_clear (Prim2SF (mae s)) = true /\ (mae s <? 0) = false) /\
  (sign_clear (Prim2SF (mse s)) = true /\ (mse s <? 0) = false).
Proof.
  unfold calculate_statistics. intros Hs.
  destruct (B64.broadcast2 _ _ _) as [residuals | e];
    cbn [bind] in Hs; [| discriminate Hs].
  injection Hs as <-. cbn [rmse mae mse].
  assert (Hmse : sign_clear (Prim2SF (B64.np_mean (B64.square residuals)))
                 = true) by apply np_mean_sign, square_all_sign.
  assert (Hmae : sign_clear (Prim2SF (B64.np_mean (B64.np_abs residuals)))
                 = true) by apply np_mean_sign, abs_all_sign.
  assert (Hrmse : sign_clear (Prim2SF (B64.np_sqrt
                    (B64.np_mean (B64.square residuals)))) = true)
    by (apply sqrt_sign, Hmse).
  repeat split; try assumption; now apply sign_clear_not_negative.
Qed.

Lemma error_metrics_never_negative_witness :
  exists s,
    calculate_statistics [9; 8; 7] [10; 8; 6] = Ok s /\
    (rmse s <? 0) = false /\ (mae s <? 0) = false /\ (mse s <? 0) = false.
Proof.
  eexists. split; [reflexivity |].
  destruct (error_metrics_never_negative [9; 8; 7] [10; 8; 6] _ eq_refl)
    as ((_ & Hrmse) & (_ & Hmae) & (_ & Hmse)).
  repeat split; assumption.
Defined.

(** X14.  With no observation, and no or one prediction (which NumPy
    stretches to the empty shape), nothing is raised and all four
    statistics are NaN. *)
Theorem statistics_of_no_observation (predicted : list float) :
  (length predicted <= 1)%nat ->
  calculate_statistics predicted []
  = Ok {| rmse := nan; r2 := nan; mae := nan; mse := nan |}.
Proof.
  intros Hlen.
  destruct predicted as [| p [| q l]]; [reflexivity | reflexivity |].
  cbn in Hlen. lia.
Qed.

Lemma statistics_of_no_observation_witness :
  calculate_statistics [] []
  = Ok {| rmse := nan; r2 := nan; mae := nan; mse := nan |}.
Proof. apply (statistics_of_no_observation []). cbn. lia. Defined.

End StatisticsSign.

Section ExactPrediction.
Local Open Scope float_scope.

Lemma digits2_pos_shift (p k : positive) :
  digits2_pos (Pos.iter xO p k) = (digits2_pos p + k)%positive.
Proof.
  induction k as [| k IH] using Pos.peano_ind.
  - cbn. lia.
  - rewrite Pos.iter_succ. cbn [digits2_pos]. rewrite IH. lia.
Qed.

Lemma digits2_pos_bound (p : positive) (n : Z) :
  (0 <= n)%Z -> (Z.pos p < 2 ^ n)%Z -> (Z.pos (digits2_pos p) <= n)%Z.
Proof.
  revert n. induction p as [q IH | q IH |]; intros n Hn Hp;
    (assert (Hn1 : (1 <= n)%Z)
      by (destruct (Z.eq_dec n 0) as [-> |]; [cbn in Hp; lia | lia]));
    [| | cbn; lia];
    replace n with (Z.succ (n - 1)) in Hp by lia;
    rewrite Z.pow_succ_r in Hp by lia;
    specialize (IH (n - 1)%Z ltac:(lia) ltac:(lia));
    cbn [digits2_pos]; lia.
Qed.

(** A mantissa of exactly 53 bits with an exponent in range is a float as
    it stands: rounding leaves it alone. *)
Lemma binary_round_aux_exact (mz : positive) (ez : Z) :
  Z.pos (digits2_pos mz) = 53%Z -> (-52 <= ez <= 0)%Z ->
  binary_round_aux prec emax false (Z.pos mz) ez loc_Exact
  = S754_finite false mz ez.
Proof.
  intros Hd He.
  assert (Hshift : (fexp prec emax (Zdigits2 (Z.pos mz) + ez) - ez = 0)%Z).
  { cbn [Zdigits2]. rewrite Hd. unfold fexp, emin, prec, emax. lia. }
  unfold binary_round_aux, shr_fexp. rewrite Hshift.
  cbn [shr shr_record_of_loc shr_m loc_of_shr_record round_nearest_even].
  rewrite Hshift. cbn [shr shr_m].
  replace (ez <=? emax - prec)%Z with true; [reflexivity |].
  symmetry. apply Z.leb_le. unfold emax, prec. lia.
Qed.

Lemma binary_round_small (p : positive) :
  (Z.pos (digits2_pos p) <= 53)%Z ->
  exists m e, binary_round prec emax false p 0 = S754_finite false m e.
Proof.
  intros Hd. unfold binary_round.
  set (d := Z.pos (digits2_pos p)) in *.
  assert (Hd1 : (1 <= d)%Z) by (unfold d; lia).
  assert (Hfexp : fexp prec emax (d + 0) = (d - 53)%Z).
  { unfold fexp, emin, prec, emax. lia. }
  rewrite Hfexp. unfold shl_align.
  destruct (d - 53 - 0)%Z as [| q | q] eqn:Hq; try lia.
  - exists p, 0%Z. apply binary_round_aux_exact; [fold d; lia | lia].
  - eexists. eexists. apply binary_round_aux_exact; [| lia].
    change (PosDef.Pos.iter xO p q) with (Pos.iter xO p q).
    rewrite digits2_pos_shift. fold d. lia.
Qed.

(** A count between 1 and 2^53 converts to a positive float. *)
Lemma of_nat_positive (n : nat) :
  (0 < Z.of_nat n < 2 ^ 53)%Z -> (0 <? B64.of_nat n) = true.
Proof.
  intros Hn. rewrite ltb_spec. change (Prim2SF 0) with (S754_zero false).
  unfold B64.of_nat. rewrite of_uint63_spec, Uint63.of_Z_spec.
  rewrite Z.mod_small
    by (split; [lia |]; apply Z.lt_trans with (2 ^ 53)%Z; [lia | reflexivity]).
  destruct (Z.of_nat n) as [| p | p] eqn:Hp; try lia.
  cbn [binary_normalize].
  destruct (binary_round_small p) as (m & e & ->); [| reflexivity].
  apply digits2_pos_bound; lia.
Qed.

(** X15.  On a perfect prediction of finite, non-empty data
    ([predicted] equal to [actual] elementwise, fewer than 2^53 points),
    RMSE, MAE and MSE are exactly +0. *)
Theorem error_metrics_zero_on_exact_prediction (actual : list float) :
  Forall (fun x => B64.is_finite x = true) actual ->
  (0 < Z.of_nat (length actual) < 2 ^ 53)%Z ->
  exists s,
    calculate_statistics actual actual = Ok s /\
    rmse s = 0 /\ mae s = 0 /\ mse s = 0.
Proof.
  intros Hfin Hlen.
  rewrite calculate_statistics_same_length by reflexivity.
  eexists. split; [reflexivity |]. cbn [rmse mae mse].
  rewrite (zip_sub_self actual Hfin).
  assert (Hmean_sq : B64.np_mean (B64.square (map (fun _ => 0) actual)) = 0).
  { unfold B64.np_mean, B64.np_sum, B64.square.
    rewrite map_map, !length_map.
    change (fun x => 0 * 0) with (fun _ : float => 0).
    rewrite np_sum_zeros. apply zero_div_pos, of_nat_positive, Hlen. }
  assert (Hmean_abs : B64.np_mean (B64.np_abs (map (fun _ => 0) actual)) = 0).
  { unfold B64.np_mean, B64.np_sum, B64.np_abs.
    rewrite map_map, !length_map.
    change (fun x => PrimFloat.abs 0) with (fun _ : float => 0).
    rewrite np_sum_zeros. apply zero_div_pos, of_nat_positive, Hlen. }
  rewrite Hmean_sq, Hmean_abs. repeat split; reflexivity.
Qed.

Lemma error_metrics_zero_on_exact_prediction_witness :
  exists s,
    calculate_statistics [10; 8; 6] [10; 8; 6] = Ok s /\
    rmse s = 0 /\ mae s = 0 /\ mse s = 0.
Proof.
  apply (error_metrics_zero_on_exact_prediction [10; 8; 6]).
  - repeat constructor.
  - cbn. lia.
Defined.

End ExactPrediction.

Section MetricSymmetry.
Local Open Scope float_scope.

Lemma binary_round_aux_opp (m e : Z) (l : location) :
  binary_round_aux prec emax true m e l
  = SFopp (binary_round_aux prec emax false m e l).
Proof.
  unfold binary_round_aux.
  destruct (shr_fexp prec emax m e l) as [mrs' e'].
  destruct (shr_fexp prec emax _ e' loc_Exact) as [mrs'' e''].
  destruct (shr_m mrs''); [reflexivity | | reflexivity].
  destruct (Z.leb e'' (emax - prec)); reflexivity.
Qed.

Lemma binary_normalize_opp (m e : Z) :
  binary_normalize prec emax (- m) e false
  = match m with
    | Z0 => S754_zero false
    | _ => SFopp (binary_normalize prec emax m e false)
    end.
Proof.
  destruct m as [| p | p]; cbn [Z.opp binary_normalize]; [reflexivity | |];
    unfold binary_round; destruct (shl_align p e _) as [mz ez];
    rewrite binary_round_aux_opp; [reflexivity |].
  destruct (binary_round_aux prec emax false (Z.pos mz) ez loc_Exact)
    as [b | b | | b m' e']; try destruct b; reflexivity.
Qed.

(** Exchanging the operands of a subtraction changes at most the sign of
    the result. *)
Lemma sub_swap (x y : float) :
  Prim2SF (y - x) = Prim2SF (x - y) \/
  Prim2SF (y - x) = SFopp (Prim2SF (x - y)).
Proof.
  rewrite !sub_spec.
  destruct (Prim2SF x) as [sx | sx | | sx mx ex],
           (Prim2SF y) as [sy | sy | | sy my ey];
    try destruct sx; try destruct sy; try solve [cbn; auto].
  all: unfold SF64sub, SFsub; cbv zeta; rewrite (Z.min_comm ey ex);
    match goal with
    | |- context [binary_normalize _ _ (?a - ?b)%Z ?e false] =>
        replace (a - b)%Z with (- (b - a))%Z by lia;
        rewrite binary_normalize_opp;
        destruct (b - a)%Z; auto
    end.
Qed.

Lemma mul_self_opp (s : spec_float) :
  SF64mul (SFopp s) (SFopp s) = SF64mul s s.
Proof. destruct s as [b | b | | b m e]; try destruct b; reflexivity. Qed.

Lemma square_swap (x y : float) : (y - x) * (y - x) = (x - y) * (x - y).
Proof.
  apply Prim2SF_inj. rewrite !mul_spec.
  destruct (sub_swap x y) as [-> | ->]; [reflexivity | apply mul_self_opp].
Qed.

Lemma abs_swap (x y : float) : PrimFloat.abs (y - x) = PrimFloat.abs (x - y).
Proof.
  apply Prim2SF_inj. rewrite !abs_spec.
  destruct (sub_swap x y) as [-> | ->]; [reflexivity |].
  now destruct (Prim2SF (x - y)).
Qed.

Lemma square_zip_swap (a b : list float) :
  B64.square (B64.zip_with PrimFloat.sub a b)
  = B64.square (B64.zip_with PrimFloat.sub b a).
Proof.
  revert b. induction a as [| x a IH]; intros [| y b]; try reflexivity.
  cbn [B64.zip_with B64.square map]. f_equal; [apply square_swap |].
  exact (IH b).
Qed.

Lemma abs_zip_swap (a b : list float) :
  B64.np_abs (B64.zip_with PrimFloat.sub a b)
  = B64.np_abs (B64.zip_with PrimFloat.sub b a).
Proof.
  revert b. induction a as [| x a IH]; intros [| y b]; try reflexivity.
  cbn [B64.zip_with B64.np_abs map]. f_equal; [apply abs_swap |].
  exact (IH b).
Qed.

(** X16.  RMSE, MAE and MSE do not tell predictions from observations:
    exchanging two sequences of equal length leaves all three unchanged,
    bit for bit. *)
Theorem error_metrics_symmetric (predicted actual : list float) :
  length predicted = length actual ->
  exists s s',
    calculate_statistics predicted actual = Ok s /\
    calculate_statistics actual predicted = Ok s' /\
    rmse s = rmse s' /\ mae s = mae s' /\ mse s = mse s'.
Proof.
  intros Hlen.
  rewrite (calculate_statistics_same_length predicted actual Hlen).
  rewrite (calculate_statistics_same_length actual predicted (eq_sym Hlen)).
  eexists. eexists. split; [reflexivity |]. split; [reflexivity |].
  cbn [rmse mae mse].
  rewrite (square_zip_swap actual predicted), (abs_zip_swap actual predicted).
  repeat split; reflexivity.
Qed.

Lemma error_metrics_symmetric_witness :
  exists s s',
    calculate_statistics [9; 8; 7] [10; 8; 6] = Ok s /\
    calculate_statistics [10; 8; 6] [9; 8; 7] = Ok s' /\
    rmse s = rmse s' /\ mae s = mae s' /\ mse s = mse s'.
Proof. exact (error_metrics_symmetric [9; 8; 7] [10; 8; 6] eq_refl). Defined.

End MetricSymmetry.

(* ================================================================== *)
(** * Part XI: half-lives                                              *)
(* ================================================================== *)

Section HalfLife.
Local Open Scope R_scope.



End HalfLife.
